(** * Post-processing utilities of the invoice extractor

    A shallow embedding of [utils/processing.py]: the cost normaliser,
    the horse-power validator and extractor, the bounding-box normaliser
    and the confidence estimator, followed by the properties the
    specification states about them.

    Conventions of the embedding.
    - Python values that reach the normalisers are the values of a JSON
      document: [None], booleans, integers, floats, strings, lists and
      string-keyed dictionaries ([pyval]).
    - A call either returns or raises: [result].
    - A character is a code point below 256; the character classes of
      [re] and of [int()] are written out for that range.
    - Floating-point numbers are idealised as exact rationals (with the
      two infinities and NaN kept apart where [int()] treats them
      differently); rounding of the binary formats is not modelled.
    - Integers are unbounded; the interpreter's configurable limit on
      the number of digits [int()] converts is not modelled. *)

From Stdlib Require Import ZArith QArith Qcanon Qround Qpower List String Ascii Bool.
From Stdlib Require Import Lia Permutation Sorted.
Import ListNotations.

Open Scope string_scope.
Open Scope Z_scope.

(** ** Python values and exceptions *)

Module Py.

Inductive exn : Type :=
| ValueError
| TypeError
| OverflowError
| AttributeError
| KeyError
| IndexError.

Inductive result (A : Type) : Type :=
| Ok (a : A)
| Raise (e : exn).

Arguments Ok {A} a.
Arguments Raise {A} e.

Definition bind {A B : Type} (m : result A) (f : A -> result B) : result B :=
  match m with
  | Ok a => f a
  | Raise e => Raise e
  end.

(** [try: m  except: h] with a bare [except] clause. *)
Definition try_except {A : Type} (m : result A) (h : exn -> result A)
  : result A :=
  match m with
  | Ok a => Ok a
  | Raise e => h e
  end.

Definition raises {A : Type} (m : result A) : Prop :=
  exists e, m = Raise e.

Inductive pyfloat : Type :=
| FFinite (q : Q)
| FInf (negative : bool)
| FNaN.

#[local] Set Warnings "-register-all".

Inductive pyval : Type :=
| VNone
| VBool (b : bool)
| VInt (z : Z)
| VFloat (f : pyfloat)
| VStr (s : string)
| VList (l : list pyval)
| VDict (d : list (string * pyval)).

(** Truth value of an object, as tested by [if x] and [not x]. *)
Definition truthy (v : pyval) : bool :=
  match v with
  | VNone => false
  | VBool b => b
  | VInt z => negb (z =? 0)
  | VFloat (FFinite q) => negb (Qnum q =? 0)
  | VFloat _ => true
  | VStr s => negb (String.eqb s EmptyString)
  | VList l => negb (Nat.eqb (List.length l) 0)
  | VDict d => negb (Nat.eqb (List.length d) 0)
  end.

(** *** Character classes *)

Definition code (c : ascii) : nat := nat_of_ascii c.

Definition between (lo hi n : nat) : bool :=
  Nat.leb lo n && Nat.leb n hi.

(** [\d], and the digits [int()] accepts. *)
Definition is_digit (c : ascii) : bool := between 48 57 (code c).

(** [\s]: TAB..CR, FS..US, space, NEL and NBSP. *)
Definition is_space (c : ascii) : bool :=
  between 9 13 (code c) || between 28 32 (code c)
  || Nat.eqb (code c) 133 || Nat.eqb (code c) 160.

(** The white space [int()] strips from a string: as [\s] without
    FS..US. *)
Definition is_int_space (c : ascii) : bool :=
  between 9 13 (code c) || Nat.eqb (code c) 32
  || Nat.eqb (code c) 133 || Nat.eqb (code c) 160.

Definition digit_val (c : ascii) : Z := Z.of_nat (code c - 48).

Definition lower (c : ascii) : ascii :=
  if between 65 90 (code c) then ascii_of_nat (code c + 32) else c.

(** *** [int(x)] *)

Fixpoint lstrip (s : string) : string :=
  match s with
  | EmptyString => EmptyString
  | String c s' => if is_int_space c then lstrip s' else s
  end.

Fixpoint rstrip (s : string) : string :=
  match s with
  | EmptyString => EmptyString
  | String c s' =>
      match rstrip s' with
      | EmptyString =>
          if is_int_space c then EmptyString else String c EmptyString
      | r => String c r
      end
  end.

Definition strip (s : string) : string := lstrip (rstrip s).

(** Decimal digits with single underscores allowed between digits.
    [prev] tells whether the previous character was a digit. *)
Fixpoint int_digits (acc : Z) (prev : bool) (s : string) : option Z :=
  match s with
  | EmptyString => if prev then Some acc else None
  | String c s' =>
      if is_digit c then int_digits (acc * 10 + digit_val c) true s'
      else if Ascii.eqb c "_" && prev then int_digits acc false s'
      else None
  end.

Definition int_of_str (s : string) : option Z :=
  match strip s with
  | EmptyString => None
  | String c r =>
      if Ascii.eqb c "+" then int_digits 0 false r
      else if Ascii.eqb c "-" then option_map Z.opp (int_digits 0 false r)
      else int_digits 0 false (String c r)
  end.

Definition int_of_float (f : pyfloat) : result Z :=
  match f with
  | FFinite q => Ok (Z.quot (Qnum q) (Zpos (Qden q)))
  | FInf _ => Raise OverflowError
  | FNaN => Raise ValueError
  end.

Definition py_int (v : pyval) : result Z :=
  match v with
  | VBool b => Ok (if b then 1 else 0)
  | VInt z => Ok z
  | VFloat f => int_of_float f
  | VStr s =>
      match int_of_str s with
      | Some z => Ok z
      | None => Raise ValueError
      end
  | VNone | VList _ | VDict _ => Raise TypeError
  end.

(** *** [isinstance] *)

(** [isinstance(x, (int, float))]: [bool] is a subclass of [int]. *)
Definition is_int_or_float (v : pyval) : bool :=
  match v with
  | VBool _ | VInt _ | VFloat _ => true
  | _ => false
  end.

Definition is_str (v : pyval) : bool :=
  match v with
  | VStr _ => true
  | _ => false
  end.

(** *** Dictionaries *)

Definition dict : Type := list (string * pyval).

Fixpoint dict_lookup (k : string) (d : dict) : option pyval :=
  match d with
  | [] => None
  | (k', v) :: d' => if String.eqb k k' then Some v else dict_lookup k d'
  end.

(** [k in d] *)
Definition dict_mem (k : string) (d : dict) : bool :=
  match dict_lookup k d with
  | Some _ => true
  | None => false
  end.

(** [d[k]] *)
Definition dict_getitem (k : string) (d : dict) : result pyval :=
  match dict_lookup k d with
  | Some v => Ok v
  | None => Raise KeyError
  end.

(** [d[k] = v]: an existing key keeps its place, a new one goes last. *)
Fixpoint dict_setitem (k : string) (v : pyval) (d : dict) : dict :=
  match d with
  | [] => [(k, v)]
  | (k', v') :: d' =>
      if String.eqb k k' then (k, v) :: d'
      else (k', v') :: dict_setitem k v d'
  end.

(** [x.get(k, default)]: only a dictionary has the method among the
    values of [pyval]. *)
Definition py_get (x : pyval) (k : string) (default : pyval) : result pyval :=
  match x with
  | VDict d =>
      match dict_lookup k d with
      | Some v => Ok v
      | None => Ok default
      end
  | _ => Raise AttributeError
  end.

(** *** Equality [==] *)

Definition float_eq (f g : pyfloat) : bool :=
  match f, g with
  | FFinite p, FFinite q => Qeq_bool p q
  | FInf a, FInf b => Bool.eqb a b
  | _, _ => false
  end.

(** A number seen as a float, for the comparison of mixed numbers
    (exact in this model). *)
Definition as_number (v : pyval) : option pyfloat :=
  match v with
  | VBool b => Some (FFinite (inject_Z (if b then 1 else 0)))
  | VInt z => Some (FFinite (inject_Z z))
  | VFloat f => Some f
  | _ => None
  end.

Fixpoint py_eq (a b : pyval) {struct a} : bool :=
  match a, b with
  | VNone, VNone => true
  | VStr s, VStr t => String.eqb s t
  | VList l, VList m =>
      (fix all2 (l : list pyval) (m : list pyval) {struct l} : bool :=
         match l, m with
         | [], [] => true
         | x :: l', y :: m' => py_eq x y && all2 l' m'
         | _, _ => false
         end) l m
  | VDict d, VDict e =>
      Nat.eqb (List.length d) (List.length e)
      && (fix sub (d : list (string * pyval)) {struct d} : bool :=
            match d with
            | [] => true
            | (k, v) :: d' =>
                match dict_lookup k e with
                | Some w => py_eq v w
                | None => false
                end && sub d'
            end) d
  | _, _ =>
      match as_number a, as_number b with
      | Some f, Some g => float_eq f g
      | _, _ => false
      end
  end.

End Py.

Import Py.

Declare Scope py_scope.
Notation "x <- m ;; k" := (bind m (fun x => k))
  (at level 61, m at next level, right associativity) : py_scope.
Open Scope py_scope.

(** ** Regular expressions

    The fragment of [re] the module uses: character classes, sequence,
    ordered alternation, greedy repetition of a class and one capturing
    group, matched by backtracking as [re] does.  The continuation [k]
    receives the rest of the subject and the text of group 1. *)

Module Re.

Inductive regex : Type :=
| Class (p : ascii -> bool)
| Seq (r1 r2 : regex)
| Alt (r1 r2 : regex)
| Star (p : ascii -> bool)
| Group (r : regex).

Definition prefix_upto (s rest : string) : string :=
  substring 0 (String.length s - String.length rest) s.

Fixpoint rmatch {A : Type} (r : regex) (s : string) (g : option string)
  (k : string -> option string -> option A) {struct r} : option A :=
  match r with
  | Class p =>
      match s with
      | String c s' => if p c then k s' g else None
      | EmptyString => None
      end
  | Seq r1 r2 => rmatch r1 s g (fun s' g' => rmatch r2 s' g' k)
  | Alt r1 r2 =>
      match rmatch r1 s g k with
      | Some a => Some a
      | None => rmatch r2 s g k
      end
  | Star p =>
      (fix star (s : string) : option A :=
         match s with
         | String c s' =>
             if p c then
               match star s' with
               | Some a => Some a
               | None => k s g
               end
             else k s g
         | EmptyString => k s g
         end) s
  | Group r1 => rmatch r1 s g (fun s' _ => k s' (Some (prefix_upto s s')))
  end.

(** A match anchored at the start of [s]: the text of group 1 and the
    rest of the subject after the match. *)
Definition match_here (r : regex) (s : string)
  : option (option string * string) :=
  rmatch r s None (fun s' g => Some (g, s')).

(** [re.search(r, s)]: the leftmost match; [m.group(1)] is its first
    component. *)
Fixpoint search (r : regex) (s : string) : option (option string * string) :=
  match match_here r s with
  | Some m => Some m
  | None =>
      match s with
      | String _ s' => search r s'
      | EmptyString => None
      end
  end.

Definition group1 (m : option string * string) : string :=
  match fst m with
  | Some t => t
  | None => EmptyString
  end.

(** [re.findall(r, s)] for a pattern with one group: the text of the
    group in every match, leftmost first, the scan resuming where the
    previous match ended.  [skip] counts the characters of the subject
    still covered by the previous match. *)
Fixpoint findall_from (r : regex) (skip : nat) (s : string) : list string :=
  match skip with
  | S n =>
      match s with
      | String _ s' => findall_from r n s'
      | EmptyString => []
      end
  | O =>
      match match_here r s with
      | Some m =>
          group1 m ::
          match s with
          | String _ s' =>
              findall_from r
                (String.length s - String.length (snd m) - 1) s'
          | EmptyString => []
          end
      | None =>
          match s with
          | String _ s' => findall_from r O s'
          | EmptyString => []
          end
      end
  end.

Definition findall (r : regex) (s : string) : list string :=
  findall_from r O s.

(** [re.sub(r, '', s)] for a pattern that is one character class. *)
Fixpoint sub_class (p : ascii -> bool) (s : string) : string :=
  match s with
  | EmptyString => EmptyString
  | String c s' => if p c then sub_class p s' else String c (sub_class p s')
  end.

(** A literal character under [re.IGNORECASE], and a literal text. *)
Definition chr_i (a : ascii) : regex :=
  Class (fun c => Ascii.eqb (lower a) (lower c)).

Fixpoint lit_i (s : string) : regex :=
  match s with
  | EmptyString => Star (fun _ => false)
  | String a EmptyString => chr_i a
  | String a s' => Seq (chr_i a) (lit_i s')
  end.

End Re.

(** ** The module [utils/processing.py] *)

Module Processing.

Import Re.

(** [r'[^\d]'] *)
Definition non_digit (c : ascii) : bool := negb (is_digit c).

Definition clean_cost (raw_cost : pyval) : result Z :=
  if is_int_or_float raw_cost then py_int raw_cost
  else
    match raw_cost with
    | VStr s =>
        let clean := sub_class non_digit s in
        if truthy (VStr clean) then py_int (VStr clean) else Ok 0
    | _ => Ok 0
    end.

(** [15 <= ival <= 100] *)
Definition in_hp_range (ival : Z) : bool := (15 <=? ival) && (ival <=? 100).

Definition sanity_check_hp (val : pyval) : result (option Z) :=
  try_except
    (if negb (truthy val) then Ok None
     else
       ival <- py_int val ;;
       Ok (if in_hp_range ival then Some ival else None))
    (fun _ => Ok None).

(** Truth value of what [sanity_check_hp] returned. *)
Definition checked (r : option Z) : bool :=
  match r with
  | Some ival => truthy (VInt ival)
  | None => truthy VNone
  end.

(** [r'(\d+)'] *)
Definition digits_re : regex := Group (Seq (Class is_digit) (Star is_digit)).

(** [(?:HP|H\.P\.|hp|Hp)] under [re.IGNORECASE] *)
Definition hp_markers : regex :=
  Alt (lit_i "HP") (Alt (lit_i "H.P.") (Alt (lit_i "hp") (lit_i "Hp"))).

(** [r'(\d{2})\s*(?:HP|H\.P\.|hp|Hp)'] under [re.IGNORECASE] *)
Definition hp_re : regex :=
  Seq (Group (Seq (Class is_digit) (Class is_digit)))
    (Seq (Star is_space) hp_markers).

(** The loop [for m in matches]. *)
Fixpoint first_checked (matches : list string) : result (option Z) :=
  match matches with
  | [] => Ok None
  | m :: rest =>
      c <- sanity_check_hp (VStr m) ;;
      if checked c then
        i <- py_int (VStr m) ;; Ok (Some i)
      else first_checked rest
  end.

Definition smart_extract_hp (data : pyval) : result (option Z) :=
  raw_hp <- py_get data "horse_power" VNone ;;
  raw_hp <-
    match raw_hp with
    | VStr s =>
        match search digits_re s with
        | Some m => i <- py_int (VStr (group1 m)) ;; Ok (VInt i)
        | None => Ok raw_hp
        end
    | _ => Ok raw_hp
    end ;;
  c <- sanity_check_hp raw_hp ;;
  if checked c then
    i <- py_int raw_hp ;; Ok (Some i)
  else
    model_str <- py_get data "model_name" (VStr "") ;;
    if truthy model_str && is_str model_str then
      match model_str with
      | VStr s => first_checked (findall hp_re s)
      | _ => Ok None
      end
    else Ok None.

Definition zero_bbox : pyval := VList [VInt 0; VInt 0; VInt 0; VInt 0].

Definition default_bbox : pyval :=
  VDict [("present", VBool false); ("bbox", zero_bbox)].

(** The dictionary argument is updated in place and returned; the
    embedding returns the updated dictionary. *)
Definition validate_bbox (field_data : pyval) : result pyval :=
  if negb (truthy field_data) then Ok default_bbox
  else
    match field_data with
    | VList l =>
        Ok (VDict [("present", VBool true);
                   ("bbox", if Nat.eqb (List.length l) 4 then VList l
                            else zero_bbox)])
    | VDict d =>
        let d1 := if dict_mem "bbox" d then d
                  else dict_setitem "bbox" zero_bbox d in
        if dict_mem "present" d1 then Ok (VDict d1)
        else
          b <- dict_getitem "bbox" d1 ;;
          Ok (VDict (dict_setitem "present" (VBool (negb (py_eq b zero_bbox))) d1))
    | _ => Ok default_bbox
    end.

End Processing.

Import Processing.

(** ** The confidence estimator

    A score step is a one-dimensional tensor of scores.  The tensor
    runtime is not part of the module: its exponential is a parameter of
    the estimator, [softmax] and [max] are written from their defining
    equations over exact rationals, and the conversion to single
    precision is therefore the identity. *)

Module Confidence.

#[local] Open Scope Qc_scope.

Definition tensor : Type := list Qc.

Definition Qcleb (x y : Qc) : bool := Qle_bool x y.

Definition qsum (l : list Qc) : Qc := fold_right Qcplus 0 l.

(** [len(l)] as a float. *)
Definition flen (l : list Qc) : Qc := Q2Qc (inject_Z (Z.of_nat (List.length l))).

(** [x.to(torch.float32)] *)
Definition to_float32 (x : tensor) : tensor := x.

(** [torch.max(x, dim=-1)]: the values; an empty dimension cannot be
    reduced. *)
Definition max_of (x : tensor) : Qc :=
  match x with
  | [] => 0
  | v :: x' => fold_left (fun m w => if Qcleb m w then w else m) x' v
  end.

Definition torch_max (x : tensor) : result Qc :=
  match x with
  | [] => Raise IndexError
  | _ :: _ => Ok (max_of x)
  end.

(** [probs.sort()] *)
Fixpoint insert (x : Qc) (l : list Qc) : list Qc :=
  match l with
  | [] => [x]
  | y :: l' => if Qcleb x y then x :: l else y :: insert x l'
  end.

Fixpoint sort (l : list Qc) : list Qc :=
  match l with
  | [] => []
  | x :: l' => insert x (sort l')
  end.

(** [max(1, int(n * 0.25))] *)
Definition cutoff (n : nat) : nat :=
  Nat.max 1
    (Z.to_nat
       (let q := (inject_Z (Z.of_nat n) * (25 # 100))%Q in
        Z.quot (Qnum q) (Zpos (Qden q)))).

(** [np.mean(l)] *)
Definition mean (l : list Qc) : Qc := qsum l / flen l.

(** Rounding to the nearest integer, ties to even. *)
Definition round_half_even (q : Q) : Z :=
  let f := Qfloor q in
  match Qcompare (q - inject_Z f) (1 # 2) with
  | Lt => f
  | Gt => (f + 1)%Z
  | Eq => if Z.even f then f else (f + 1)%Z
  end.

(** [round(x, ndigits)] *)
Definition py_round (x : Qc) (ndigits : nat) : Qc :=
  let scale := inject_Z (10 ^ Z.of_nat ndigits) in
  Q2Qc (inject_Z (round_half_even (x * scale)%Q) / scale)%Q.

Section Estimator.

Variable exp : Qc -> Qc.

(** [torch.nn.functional.softmax(x, dim=-1)] *)
Definition softmax (x : tensor) : tensor :=
  let e := map exp x in
  map (fun v => v / qsum e) e.

(** The body of the loop, for one step. *)
Definition step_prob (step_scores : tensor) : result Qc :=
  let step_scores_f32 := to_float32 step_scores in
  let step_probs := softmax step_scores_f32 in
  torch_max step_probs.

(** The loop [for step_scores in scores], [probs] being the list
    built so far. *)
Fixpoint collect (probs : list Qc) (scores : list tensor)
  : result (list Qc) :=
  match scores with
  | [] => Ok probs
  | step_scores :: rest =>
      max_prob <- step_prob step_scores ;;
      collect (probs ++ [max_prob]) rest
  end.

Definition calculate_confidence (scores : list tensor) : result Qc :=
  match scores with
  | [] => Ok 0
  | _ :: _ =>
      probs <- collect [] scores ;;
      match probs with
      | [] => Ok 0
      | _ :: _ =>
          let probs := sort probs in
          let hardest_tokens := firstn (cutoff (List.length probs)) probs in
          let avg_score := mean hardest_tokens in
          Ok (py_round avg_score 4)
      end
  end.

End Estimator.

End Confidence.

Import Confidence.

(** * Reference definitions

    What the specification says in words, written directly: they are
    compared below with the embedding of the code. *)

Module Spec.

Fixpoint all_digits (s : string) : bool :=
  match s with
  | EmptyString => true
  | String c s' => is_digit c && all_digits s'
  end.

(** The number a string of decimal digits denotes, most significant
    digit first. *)
Fixpoint decimal (acc : Z) (s : string) : Z :=
  match s with
  | EmptyString => acc
  | String c s' => decimal (acc * 10 + digit_val c) s'
  end.

(** Truncation toward zero. *)
Definition truncate (q : Q) : Z :=
  if Qle_bool 0 q then Qfloor q else Qceiling q.


(** The longest prefix of characters of a class, and what follows it. *)
Fixpoint take_while (p : ascii -> bool) (s : string) : string :=
  match s with
  | EmptyString => EmptyString
  | String c s' => if p c then String c (take_while p s') else EmptyString
  end.

Fixpoint drop_while (p : ascii -> bool) (s : string) : string :=
  match s with
  | EmptyString => EmptyString
  | String c s' => if p c then drop_while p s' else s
  end.

(** The first run of digits found anywhere in a text. *)
Fixpoint first_digit_run (s : string) : option string :=
  match s with
  | EmptyString => None
  | String c s' =>
      if is_digit c then Some (String c (take_while is_digit s'))
      else first_digit_run s'
  end.

(** [s] starts with [p], letters compared without case: the rest. *)
Fixpoint starts_with_i (p s : string) : option string :=
  match p with
  | EmptyString => Some s
  | String a p' =>
      match s with
      | EmptyString => None
      | String c s' =>
          if Ascii.eqb (lower a) (lower c) then starts_with_i p' s' else None
      end
  end.

(** A text in lower case, and a text made of characters of a class. *)
Fixpoint lower_str (s : string) : string :=
  match s with
  | EmptyString => EmptyString
  | String c s' => String (lower c) (lower_str s')
  end.

Fixpoint all_of (p : ascii -> bool) (s : string) : bool :=
  match s with
  | EmptyString => true
  | String c s' => p c && all_of p s'
  end.

(** The unit markers: the letters H and P in any case, with or without
    the full stops. *)
Definition is_marker (m : string) : Prop :=
  lower_str m = "hp" \/ lower_str m = "h.p.".

(** A horse-power unit marker at the start of [s]: what follows it. *)
Definition hp_marker (s : string) : option string :=
  match starts_with_i "hp" s with
  | Some rest => Some rest
  | None => starts_with_i "h.p." s
  end.

(** A two-digit number followed, optionally after white space, by a
    marker, at the start of [s]: the number and what follows the
    marker. *)
Definition hp_here (s : string) : option (string * string) :=
  match s with
  | String d1 (String d2 s') =>
      if is_digit d1 && is_digit d2 then
        match hp_marker (drop_while is_space s') with
        | Some rest => Some (String d1 (String d2 EmptyString), rest)
        | None => None
        end
      else None
  | _ => None
  end.

(** The numbers of all such places in order of appearance, a place
    starting no earlier than where the previous one ended. *)
Fixpoint hp_candidates_from (skip : nat) (s : string) : list string :=
  match s with
  | EmptyString => []
  | String _ s' =>
      match skip with
      | S n => hp_candidates_from n s'
      | O =>
          match hp_here s with
          | Some (num, rest) =>
              num :: hp_candidates_from
                       (String.length s - String.length rest - 1) s'
          | None => hp_candidates_from O s'
          end
      end
  end.

Definition hp_candidates (s : string) : list string :=
  hp_candidates_from O s.

(** The validator's verdict on a candidate. *)
Definition validated (v : pyval) : option Z :=
  match sanity_check_hp v with
  | Ok r => r
  | Raise _ => None
  end.

(** Strategy 1: the candidate of the direct field. *)
Definition direct_candidate (v : pyval) : pyval :=
  match v with
  | VStr s =>
      match first_digit_run s with
      | Some run => VInt (decimal 0 run)
      | None => v
      end
  | _ => v
  end.

(** Strategy 2: the first candidate that passes the validator. *)
Fixpoint first_valid (candidates : list string) : option Z :=
  match candidates with
  | [] => None
  | m :: rest =>
      match validated (VStr m) with
      | Some i => Some i
      | None => first_valid rest
      end
  end.

Definition field (k : string) (record : dict) : pyval :=
  match dict_lookup k record with
  | Some v => v
  | None => VNone
  end.

Definition extract_hp (record : dict) : option Z :=
  match validated (direct_candidate (field "horse_power" record)) with
  | Some i => Some i
  | None =>
      match field "model_name" record with
      | VStr s => first_valid (hp_candidates s)
      | _ => None
      end
  end.

(** The number of steps averaged: [max(1, floor(n * 0.25))]. *)
Definition lowest_count (n : nat) : nat := Nat.max 1 (n / 4).

(** The largest probability softmax gives to a token of one step. *)
Definition step_confidence (exp : Qc -> Qc) (step : tensor) : Qc :=
  max_of (softmax exp step).

Definition is_empty (step : tensor) : bool :=
  match step with
  | [] => true
  | _ :: _ => false
  end.

End Spec.

Import Spec.

(** * Sample data

    A positive stand-in for the exponential, to run the estimator on
    examples (2 to the power of the integer part), and integer scores. *)



(** * Further reference definitions *)

(** A number equal to zero: [0], [0.0] or [False]. *)
Definition is_numeric_zero (v : pyval) : bool :=
  match v with
  | VInt z => z =? 0
  | VBool b => negb b
  | VFloat (FFinite q) => Qnum q =? 0
  | _ => false
  end.

(** A list of exactly four numbers equal to zero. *)
Definition is_zero_box (v : pyval) : bool :=
  match v with
  | VList [a; b; c; d] =>
      is_numeric_zero a && is_numeric_zero b
      && is_numeric_zero c && is_numeric_zero d
  | _ => false
  end.

(** The box of a mapping: its [bbox] entry, the zero box without one. *)
Definition bbox_of (d : dict) : pyval :=
  match dict_lookup "bbox" d with
  | Some b => b
  | None => zero_bbox
  end.

(** A mapping with the entries [validate_bbox] expects filled in where
    they are missing. *)
Definition with_bbox (d : dict) : dict :=
  if dict_mem "bbox" d then d else dict_setitem "bbox" zero_bbox d.

Definition fill_missing (d : dict) : dict :=
  if dict_mem "present" (with_bbox d) then with_bbox d
  else dict_setitem "present"
         (VBool (negb (py_eq (bbox_of d) zero_bbox))) (with_bbox d).

(** A text of exactly two digits. *)
Definition two_digits (m : string) : Prop :=
  exists d1 d2, m = String d1 (String d2 EmptyString)
                /\ is_digit d1 = true /\ is_digit d2 = true.


(** * Properties *)

(** ** Digit strings and [int()] *)

Lemma digit_not_space (c : ascii) :
  is_digit c = true -> is_int_space c = false.
Proof.
  unfold is_digit, is_int_space, between.
  rewrite andb_true_iff, !Nat.leb_le. intros [Hlo Hhi].
  repeat rewrite orb_false_iff. repeat split.
  - apply andb_false_iff. right. apply Nat.leb_gt. lia.
  - apply Nat.eqb_neq. lia.
  - apply Nat.eqb_neq. lia.
  - apply Nat.eqb_neq. lia.
Qed.

Lemma digit_not_sign (c : ascii) :
  is_digit c = true -> Ascii.eqb c "+" = false /\ Ascii.eqb c "-" = false.
Proof.
  intros H. split; apply Ascii.eqb_neq; intros ->; discriminate H.
Qed.

Lemma rstrip_digits (s : string) : all_digits s = true -> rstrip s = s.
Proof.
  induction s as [|c s IH]; simpl; [reflexivity|].
  rewrite andb_true_iff. intros [Hc Hs]. rewrite (IH Hs).
  destruct s; [|reflexivity].
  now rewrite (digit_not_space c Hc).
Qed.

Lemma strip_digits (s : string) : all_digits s = true -> strip s = s.
Proof.
  intros H. unfold strip. rewrite (rstrip_digits s H).
  destruct s as [|c s]; simpl in *; [reflexivity|].
  apply andb_true_iff in H as [Hc _]. now rewrite (digit_not_space c Hc).
Qed.

Lemma int_digits_decimal (s : string) :
  all_digits s = true ->
  forall acc prev, s <> EmptyString \/ prev = true ->
  int_digits acc prev s = Some (decimal acc s).
Proof.
  induction s as [|c s IH]; simpl; intros H acc prev Hne.
  - destruct Hne as [Hne | ->]; [now elim Hne | reflexivity].
  - apply andb_true_iff in H as [Hc Hs]. rewrite Hc.
    apply IH; auto.
Qed.

Lemma int_of_str_digits (s : string) :
  all_digits s = true -> s <> EmptyString ->
  int_of_str s = Some (decimal 0 s).
Proof.
  intros H Hne. unfold int_of_str. rewrite (strip_digits s H).
  destruct s as [|c s]; [now elim Hne|].
  pose proof H as H'. simpl in H'. apply andb_true_iff in H' as [Hc _].
  destruct (digit_not_sign c Hc) as [-> ->].
  apply int_digits_decimal; auto.
Qed.



(** ** The validator *)

Lemma falsy_int (v : pyval) (i : Z) :
  truthy v = false -> py_int v = Ok i -> i = 0.
Proof.
  destruct v as [|b|z|f|s|l|d]; simpl; try discriminate.
  - intros ->. congruence.
  - rewrite negb_false_iff, Z.eqb_eq. congruence.
  - destruct f as [q| |]; simpl; try discriminate.
    rewrite negb_false_iff, Z.eqb_eq. intros -> [= <-].
    reflexivity.
  - rewrite negb_false_iff. intros H. apply String.eqb_eq in H. subst s.
    discriminate.
Qed.

Lemma in_hp_range_iff (i : Z) : in_hp_range i = true <-> 15 <= i <= 100.
Proof. unfold in_hp_range. rewrite andb_true_iff, !Z.leb_le. tauto. Qed.

Lemma sanity_check_hp_returns (val : pyval) :
  exists r, sanity_check_hp val = Ok r.
Proof.
  unfold sanity_check_hp.
  destruct (truthy val); simpl; [|eauto].
  destruct (py_int val); simpl; eauto.
Qed.

Lemma sanity_check_hp_some (val : pyval) (i : Z) :
  sanity_check_hp val = Ok (Some i) <->
  truthy val = true /\ py_int val = Ok i /\ in_hp_range i = true.
Proof.
  unfold sanity_check_hp.
  destruct (truthy val); simpl.
  - destruct (py_int val) as [z|e]; simpl.
    + destruct (in_hp_range z) eqn:Hz; split.
      * intros [= <-]. auto.
      * intros (_ & [= <-] & _). reflexivity.
      * discriminate.
      * intros (_ & [= <-] & H). congruence.
    + split; [discriminate | intros (_ & H & _); discriminate].
  - split; [discriminate | intros (H & _); discriminate].
Qed.

Lemma checked_some (r : option Z) :
  checked r = true -> exists i, r = Some i.
Proof. destruct r; simpl; [eauto | discriminate]. Qed.

Lemma checked_in_range (i : Z) : in_hp_range i = true -> checked (Some i) = true.
Proof.
  rewrite in_hp_range_iff. simpl. intros H.
  apply negb_true_iff, Z.eqb_neq. lia.
Qed.

(** ** The cost normaliser *)

Lemma truncate_quot (q : Q) : Z.quot (Qnum q) (Zpos (Qden q)) = truncate q.
Proof.
  destruct q as [n d]. unfold truncate, Qle_bool, Qceiling, Qfloor. simpl.
  rewrite Z.mul_1_r.
  destruct (Z.leb_spec 0 n) as [H | H].
  - apply Z.quot_div_nonneg; lia.
  - rewrite <- (Z.opp_involutive n) at 1.
    rewrite Z.quot_opp_l by lia.
    rewrite Z.quot_div_nonneg by lia. reflexivity.
Qed.





(** ** The validator, continued *)

(** C6: [sanity_check_hp] returns an integer exactly when [int()]
    converts the input and the result lies in 15..100, and that integer
    is the converted value; it returns [None] otherwise, in particular
    for a falsy input and when the conversion fails; it never raises. *)
Theorem sanity_check_hp_contract (val : pyval) :
  (forall i, sanity_check_hp val = Ok (Some i) <->
             py_int val = Ok i /\ 15 <= i <= 100)
  /\ ((forall i, ~ (py_int val = Ok i /\ 15 <= i <= 100)) ->
      sanity_check_hp val = Ok None)
  /\ (truthy val = false -> sanity_check_hp val = Ok None)
  /\ (raises (py_int val) -> sanity_check_hp val = Ok None)
  /\ ~ raises (sanity_check_hp val).
Proof.
  assert (Hiff : forall i, sanity_check_hp val = Ok (Some i) <->
                           py_int val = Ok i /\ 15 <= i <= 100).
  { intros i. rewrite sanity_check_hp_some, in_hp_range_iff. split.
    - tauto.
    - intros [Hi Hr]. split; [|split; [exact Hi | exact Hr]].
      destruct (truthy val) eqn:Ht; [reflexivity|].
      pose proof (falsy_int val i Ht Hi). lia. }
  split; [exact Hiff|].
  split; [|split; [|split]].
  - intros Hno. destruct (sanity_check_hp_returns val) as [[i|] Hr]; auto.
    apply Hiff in Hr. now elim (Hno i).
  - intros Ht. unfold sanity_check_hp. now rewrite Ht.
  - intros [e He]. unfold sanity_check_hp. rewrite He.
    now destruct (truthy val).
  - intros [e He]. destruct (sanity_check_hp_returns val) as [r Hr].
    congruence.
Qed.

(** ** The bounding-box normaliser *)

Lemma dict_lookup_setitem (k : string) (v : pyval) (d : dict) :
  dict_lookup k (dict_setitem k v d) = Some v.
Proof.
  induction d as [|[k' v'] d IH]; simpl.
  - now rewrite String.eqb_refl.
  - destruct (String.eqb k k') eqn:Hk; simpl.
    + now rewrite String.eqb_refl.
    + now rewrite Hk.
Qed.


(** C9, as the code has it: a list of four elements yields
    [{present: True, bbox: <that list>}], and a non-empty list of any
    other length yields [{present: True, bbox: [0, 0, 0, 0]}]. *)
Theorem validate_bbox_list (l : list pyval) :
  l <> [] ->
  validate_bbox (VList l) =
  Ok (VDict [("present", VBool true);
             ("bbox", if Nat.eqb (List.length l) 4 then VList l
                      else zero_bbox)])
  /\ (List.length l = 4%nat ->
      validate_bbox (VList l) =
      Ok (VDict [("present", VBool true); ("bbox", VList l)]))
  /\ (List.length l <> 4%nat ->
      validate_bbox (VList l) =
      Ok (VDict [("present", VBool true); ("bbox", zero_bbox)])).
Proof.
  intros Hne.
  assert (H : validate_bbox (VList l) =
              Ok (VDict [("present", VBool true);
                         ("bbox", if Nat.eqb (List.length l) 4 then VList l
                                  else zero_bbox)])).
  { destruct l; [now elim Hne | reflexivity]. }
  repeat split.
  - exact H.
  - intros H4. rewrite H, H4. reflexivity.
  - intros H4. rewrite H. apply Nat.eqb_neq in H4. now rewrite H4.
Qed.

Lemma validate_bbox_list_witness :
  [VInt 1; VInt 2; VInt 3] <> []
  /\ validate_bbox (VList [VInt 1; VInt 2; VInt 3]) =
     Ok (VDict [("present", VBool true); ("bbox", zero_bbox)]).
Proof.
  assert (Hne : [VInt 1; VInt 2; VInt 3] <> []) by discriminate.
  split; [exact Hne|].
  exact (proj1 (validate_bbox_list [VInt 1; VInt 2; VInt 3] Hne)).
Defined.

(** C9 as stated fails on the empty list, which is falsy and takes the
    default: it is not marked present. *)
Example validate_bbox_empty_list :
  validate_bbox (VList []) =
  Ok (VDict [("present", VBool false); ("bbox", zero_bbox)]).
Proof. reflexivity. Qed.

(** ** The regular expressions of the extractor *)

Lemma length_append (a b : string) :
  String.length (a ++ b) = (String.length a + String.length b)%nat.
Proof. induction a as [|c a IH]; simpl; [reflexivity | now rewrite IH]. Qed.

Lemma prefix_upto_app (a b : string) : Re.prefix_upto (a ++ b) b = a.
Proof.
  unfold Re.prefix_upto. rewrite length_append.
  replace (String.length a + String.length b - String.length b)%nat
    with (String.length a) by lia.
  induction a as [|c a IH]; simpl.
  - destruct b; reflexivity.
  - now rewrite IH.
Qed.

Lemma take_drop_while (p : ascii -> bool) (s : string) :
  (take_while p s ++ drop_while p s)%string = s.
Proof.
  induction s as [|c s IH]; simpl; [reflexivity|].
  destruct (p c); simpl; [now rewrite IH | reflexivity].
Qed.

(** A greedy repetition takes the longest run when what follows
    accepts the rest. *)
Lemma rmatch_star_greedy {A : Type} (p : ascii -> bool) (s : string)
  (g : option string) (k : string -> option string -> option A) (a : A) :
  k (drop_while p s) g = Some a ->
  Re.rmatch (Re.Star p) s g k = Some a.
Proof.
  induction s as [|c s IH]; simpl; intros H; [exact H|].
  destruct (p c); [|exact H].
  simpl in IH. now rewrite (IH H).
Qed.

(** A greedy repetition gives nothing back to a continuation that
    cannot start with a character of the class. *)
Lemma rmatch_star_committed {A : Type} (p : ascii -> bool) (s : string)
  (g : option string) (k : string -> option string -> option A) :
  (forall c s', p c = true -> k (String c s') g = None) ->
  Re.rmatch (Re.Star p) s g k = k (drop_while p s) g.
Proof.
  intros Hk. induction s as [|c s IH]; simpl; [reflexivity|].
  destruct (p c) eqn:Hc; [|reflexivity].
  simpl in IH. rewrite IH.
  destruct (k (drop_while p s) g); [reflexivity | now apply Hk].
Qed.

Section Unfolding.

Context {A : Type} (g : option string)
  (k : string -> option string -> option A).

Lemma rmatch_class (p : ascii -> bool) (c : ascii) (s : string) :
  Re.rmatch (Re.Class p) (String c s) g k = if p c then k s g else None.
Proof. reflexivity. Qed.

Lemma rmatch_seq (r1 r2 : Re.regex) (s : string) :
  Re.rmatch (Re.Seq r1 r2) s g k =
  Re.rmatch r1 s g (fun s' g' => Re.rmatch r2 s' g' k).
Proof. reflexivity. Qed.

Lemma rmatch_alt (r1 r2 : Re.regex) (s : string) :
  Re.rmatch (Re.Alt r1 r2) s g k =
  match Re.rmatch r1 s g k with
  | Some a => Some a
  | None => Re.rmatch r2 s g k
  end.
Proof. reflexivity. Qed.

Lemma rmatch_group (r : Re.regex) (s : string) :
  Re.rmatch (Re.Group r) s g k =
  Re.rmatch r s g (fun s' _ => k s' (Some (Re.prefix_upto s s'))).
Proof. reflexivity. Qed.

End Unfolding.

Lemma match_here_digits (s : string) :
  Re.match_here digits_re s =
  match s with
  | String c s' =>
      if is_digit c
      then Some (Some (String c (take_while is_digit s')),
                 drop_while is_digit s')
      else None
  | EmptyString => None
  end.
Proof.
  unfold Re.match_here, digits_re.
  destruct s as [|c s]; [reflexivity|].
  rewrite rmatch_group, rmatch_seq, rmatch_class.
  destruct (is_digit c); [|reflexivity].
  apply rmatch_star_greedy. f_equal. f_equal. f_equal.
  rewrite <- (take_drop_while is_digit s) at 1.
  apply (prefix_upto_app (String c (take_while is_digit s))).
Qed.

Lemma search_digits (s : string) :
  option_map Re.group1 (Re.search digits_re s) = first_digit_run s.
Proof.
  induction s as [|c s IH]; [reflexivity|].
  cbn [Re.search first_digit_run]. rewrite match_here_digits.
  destruct (is_digit c); [reflexivity | exact IH].
Qed.

Lemma take_while_all_digits (s : string) :
  all_digits (take_while is_digit s) = true.
Proof.
  induction s as [|c s IH]; simpl; [reflexivity|].
  destruct (is_digit c) eqn:Hc; simpl; [now rewrite Hc | reflexivity].
Qed.

Lemma first_digit_run_digits (s run : string) :
  first_digit_run s = Some run ->
  all_digits run = true /\ run <> EmptyString.
Proof.
  induction s as [|c s IH]; simpl; [discriminate|].
  destruct (is_digit c) eqn:Hc; [|exact IH].
  intros [= <-]. split; [|discriminate].
  simpl. now rewrite Hc, take_while_all_digits.
Qed.

Lemma rmatch_lit_i {A : Type} (p s : string) (g : option string)
  (k : string -> option string -> option A) :
  Re.rmatch (Re.lit_i p) s g k =
  match starts_with_i p s with
  | Some rest => k rest g
  | None => None
  end.
Proof.
  revert s k. induction p as [|a p IH]; intros s k.
  - destruct s; reflexivity.
  - destruct p as [|b p].
    + destruct s as [|c s]; [reflexivity|]. simpl.
      now destruct (Ascii.eqb (lower a) (lower c)).
    + change (Re.lit_i (String a (String b p)))
        with (Re.Seq (Re.chr_i a) (Re.lit_i (String b p))).
      rewrite rmatch_seq.
      destruct s as [|c s]; [reflexivity|].
      unfold Re.chr_i. rewrite rmatch_class.
      cbn [starts_with_i].
      destruct (Ascii.eqb (lower a) (lower c)); [apply IH | reflexivity].
Qed.

Lemma rmatch_hp_markers (s : string) (g : option string) :
  Re.rmatch hp_markers s g (fun s' g' => Some (g', s')) =
  match hp_marker s with
  | Some rest => Some (g, rest)
  | None => None
  end.
Proof.
  unfold hp_markers. rewrite !rmatch_alt, !rmatch_lit_i.
  unfold hp_marker.
  change (starts_with_i "HP" s) with (starts_with_i "hp" s).
  change (starts_with_i "Hp" s) with (starts_with_i "hp" s).
  change (starts_with_i "H.P." s) with (starts_with_i "h.p." s).
  destruct (starts_with_i "hp" s); [reflexivity|].
  destruct (starts_with_i "h.p." s); reflexivity.
Qed.

Lemma space_not_marker (c : ascii) (s : string) :
  is_space c = true -> hp_marker (String c s) = None.
Proof.
  intros Hc. unfold hp_marker. cbn [starts_with_i].
  assert (H : Ascii.eqb (lower "h") (lower c) = false).
  { apply Ascii.eqb_neq. intros Heq.
    destruct c as [[] [] [] [] [] [] [] []]; try discriminate Hc;
      discriminate Heq. }
  now rewrite H.
Qed.

Lemma match_here_hp (s : string) :
  Re.match_here hp_re s =
  match hp_here s with
  | Some (num, rest) => Some (Some num, rest)
  | None => None
  end.
Proof.
  unfold Re.match_here, hp_re, hp_here.
  rewrite rmatch_seq, rmatch_group, rmatch_seq.
  destruct s as [|d1 s]; [reflexivity|]. rewrite rmatch_class.
  destruct (is_digit d1); [|now destruct s].
  destruct s as [|d2 s]; [reflexivity|]. rewrite rmatch_class.
  destruct (is_digit d2); [|reflexivity].
  cbv beta. rewrite rmatch_seq.
  pose proof (prefix_upto_app (String d1 (String d2 EmptyString)) s) as Hpre.
  cbn [append] in Hpre. rewrite Hpre.
  rewrite rmatch_star_committed.
  - rewrite rmatch_hp_markers. simpl andb. cbv iota.
    now destruct (hp_marker (drop_while is_space s)).
  - intros c s' Hc. rewrite rmatch_hp_markers.
    now rewrite space_not_marker.
Qed.

Lemma findall_hp_from (s : string) (skip : nat) :
  Re.findall_from hp_re skip s = hp_candidates_from skip s.
Proof.
  revert skip. induction s as [|c s IH]; intros skip.
  - destruct skip; [|reflexivity].
    cbn [Re.findall_from]. now rewrite match_here_hp.
  - destruct skip as [|n]; cbn [Re.findall_from hp_candidates_from].
    + rewrite match_here_hp.
      destruct (hp_here (String c s)) as [[num rest]|].
      * cbn [Re.group1 fst snd]. now rewrite IH.
      * apply IH.
    + apply IH.
Qed.

Lemma findall_hp (s : string) : Re.findall hp_re s = hp_candidates s.
Proof. apply findall_hp_from. Qed.

(** ** What the reference scanners find *)



Lemma drop_while_app (p : ascii -> bool) (a b : string) :
  all_of p a = true -> take_while p b = EmptyString ->
  drop_while p (a ++ b) = b.
Proof.
  induction a as [|c a IH]; simpl.
  - intros _ Hb. destruct b as [|c b]; [reflexivity|].
    simpl in *. now destruct (p c).
  - rewrite andb_true_iff. intros [Hc Ha] Hb. now rewrite Hc, IH.
Qed.

Lemma all_of_take_while (p : ascii -> bool) (s : string) :
  all_of p (take_while p s) = true.
Proof.
  induction s as [|c s IH]; simpl; [reflexivity|].
  destruct (p c) eqn:Hc; simpl; [now rewrite Hc | reflexivity].
Qed.


Lemma starts_with_i_spec (p s rest : string) :
  starts_with_i p s = Some rest <->
  exists m, s = (m ++ rest)%string /\ lower_str m = lower_str p.
Proof.
  split.
  - revert s. induction p as [|a p IH]; simpl; intros s.
    + intros [= ->]. now exists EmptyString.
    + destruct s as [|c s]; [discriminate|].
      destruct (Ascii.eqb (lower a) (lower c)) eqn:Hc; [|discriminate].
      apply Ascii.eqb_eq in Hc. intros H.
      destruct (IH s H) as (m & -> & Hm).
      exists (String c m). simpl. now rewrite Hm, Hc.
  - intros (m & -> & Hm). revert m Hm.
    induction p as [|a p IH]; simpl; intros m Hm.
    + now destruct m.
    + destruct m as [|c m]; [discriminate|]. simpl in *.
      injection Hm as Hc Hm. rewrite Hc, Ascii.eqb_refl. now apply IH.
Qed.

Lemma hp_marker_spec (s rest : string) :
  hp_marker s = Some rest <->
  exists m, s = (m ++ rest)%string /\ is_marker m.
Proof.
  unfold hp_marker, is_marker. split.
  - destruct (starts_with_i "hp" s) as [r|] eqn:H1.
    + intros [= ->]. apply starts_with_i_spec in H1 as (m & -> & Hm).
      exists m. auto.
    + intros H2. apply starts_with_i_spec in H2 as (m & -> & Hm).
      exists m. auto.
  - intros (m & -> & [Hm | Hm]).
    + assert (H : starts_with_i "hp" (m ++ rest) = Some rest)
        by (apply starts_with_i_spec; now exists m).
      now rewrite H.
    + assert (H : starts_with_i "hp" (m ++ rest) = None).
      { destruct m as [|c1 [|c2 m]]; try discriminate.
        simpl in Hm. injection Hm as H1 H2 _. cbn [append starts_with_i].
        rewrite H2. now destruct (Ascii.eqb (lower "h") (lower c1)). }
      rewrite H. apply starts_with_i_spec. now exists m.
Qed.

Lemma marker_not_space (m rest : string) :
  is_marker m -> take_while is_space (m ++ rest) = EmptyString.
Proof.
  intros Hm.
  assert (H : exists c m', m = String c m' /\ lower c = "h"%char).
  { destruct m as [|c m]; [destruct Hm; discriminate|].
    exists c, m. split; [reflexivity|].
    destruct Hm as [Hm | Hm]; simpl in Hm; now injection Hm. }
  destruct H as (c & m' & -> & Hc). simpl.
  destruct (is_space c) eqn:Hs; [|reflexivity].
  destruct c as [[] [] [] [] [] [] [] []]; discriminate.
Qed.

(** A place where [hp_here] succeeds: two digits, white space or none,
    a marker. *)
Lemma hp_here_spec (s num rest : string) :
  hp_here s = Some (num, rest) <->
  exists d1 d2 ws m,
    s = String d1 (String d2 (ws ++ m ++ rest))
    /\ num = String d1 (String d2 EmptyString)
    /\ is_digit d1 = true /\ is_digit d2 = true
    /\ all_of is_space ws = true /\ is_marker m.
Proof.
  unfold hp_here. split.
  - destruct s as [|d1 [|d2 s]]; try discriminate.
    destruct (is_digit d1) eqn:H1, (is_digit d2) eqn:H2; try discriminate.
    cbn [andb].
    destruct (hp_marker (drop_while is_space s)) as [r|] eqn:Hm;
      [|discriminate].
    intros [= <- <-]. apply hp_marker_spec in Hm as (m & Hs & Hm).
    exists d1, d2, (take_while is_space s), m.
    rewrite <- Hs, take_drop_while.
    repeat split; auto using all_of_take_while.
  - intros (d1 & d2 & ws & m & -> & -> & H1 & H2 & Hws & Hm).
    rewrite H1, H2. cbn [andb].
    rewrite (drop_while_app _ _ _ Hws (marker_not_space m rest Hm)).
    assert (H : hp_marker (m ++ rest) = Some rest)
      by (apply hp_marker_spec; now exists m).
    now rewrite H.
Qed.

(** ** The extractor *)

(** The test [if sanity_check_hp(v): return int(v)] returns what the
    validator accepted. *)
Lemma check_then_int (v : pyval) (otherwise : result (option Z)) :
  (c <- sanity_check_hp v ;;
   if checked c then i <- py_int v ;; Ok (Some i) else otherwise) =
  match validated v with
  | Some i => Ok (Some i)
  | None => otherwise
  end.
Proof.
  unfold validated.
  destruct (sanity_check_hp_returns v) as [r Hr]. rewrite Hr. simpl.
  destruct r as [i|]; [|reflexivity].
  apply sanity_check_hp_some in Hr as (_ & Hi & Hrange).
  rewrite (checked_in_range i Hrange), Hi. reflexivity.
Qed.

Lemma first_checked_valid (matches : list string) :
  first_checked matches = Ok (first_valid matches).
Proof.
  induction matches as [|m rest IH]; [reflexivity|].
  cbn [first_checked first_valid]. rewrite check_then_int.
  destruct (validated (VStr m)); [reflexivity | exact IH].
Qed.

Lemma direct_candidate_code (raw_hp : pyval) :
  match raw_hp with
  | VStr s =>
      match Re.search digits_re s with
      | Some m => i <- py_int (VStr (Re.group1 m)) ;; Ok (VInt i)
      | None => Ok raw_hp
      end
  | _ => Ok raw_hp
  end = Ok (direct_candidate raw_hp).
Proof.
  destruct raw_hp as [|b|z|f|s|l|d]; try reflexivity.
  unfold direct_candidate. rewrite <- search_digits.
  destruct (Re.search digits_re s) as [m|] eqn:Hm; [|reflexivity].
  cbn [option_map].
  assert (Hrun : first_digit_run s = Some (Re.group1 m)).
  { rewrite <- search_digits, Hm. reflexivity. }
  apply first_digit_run_digits in Hrun as [Hd Hne].
  cbn [py_int]. now rewrite (int_of_str_digits _ Hd Hne).
Qed.

Lemma smart_extract_hp_record (record : dict) :
  smart_extract_hp (VDict record) = Ok (extract_hp record).
Proof.
  unfold smart_extract_hp, extract_hp, field.
  cbn [py_get].
  set (raw := match dict_lookup "horse_power" record with
              | Some v => v
              | None => VNone
              end).
  replace (match dict_lookup "horse_power" record with
           | Some v => Ok v
           | None => Ok VNone
           end) with (Ok raw : result pyval)
    by (subst raw; now destruct (dict_lookup "horse_power" record)).
  cbn [bind]. rewrite direct_candidate_code. cbn [bind].
  rewrite check_then_int.
  destruct (validated (direct_candidate raw)); [reflexivity|].
  destruct (dict_lookup "model_name" record) as [v|]; [|reflexivity].
  cbn [bind].
  destruct v as [|b|z|f|s|l|d]; try reflexivity;
    try (now destruct (truthy _)).
  destruct (truthy (VStr s)) eqn:Ht; cbn [andb is_str].
  - now rewrite first_checked_valid, findall_hp.
  - simpl in Ht. apply negb_false_iff, String.eqb_eq in Ht. now subst s.
Qed.

Lemma validated_range (v : pyval) (i : Z) :
  validated v = Some i -> 15 <= i <= 100.
Proof.
  unfold validated. destruct (sanity_check_hp v) as [r|e] eqn:Hr;
    [|discriminate].
  intros ->. apply sanity_check_hp_some in Hr as (_ & _ & H).
  now apply in_hp_range_iff.
Qed.

Lemma first_valid_range (candidates : list string) (i : Z) :
  first_valid candidates = Some i -> 15 <= i <= 100.
Proof.
  induction candidates as [|m rest IH]; simpl; [discriminate|].
  destruct (validated (VStr m)) as [j|] eqn:Hj; [|exact IH].
  intros [= <-]. exact (validated_range _ _ Hj).
Qed.

Lemma extract_hp_range (record : dict) (i : Z) :
  extract_hp record = Some i -> 15 <= i <= 100.
Proof.
  unfold extract_hp.
  destruct (validated (direct_candidate (field "horse_power" record)))
    as [j|] eqn:Hj.
  - intros [= <-]. exact (validated_range _ _ Hj).
  - destruct (field "model_name" record); try discriminate.
    apply first_valid_range.
Qed.








(** C10: a value [smart_extract_hp] returns lies in 15..100. *)
Theorem smart_extract_hp_in_range (data : pyval) (v : Z) :
  smart_extract_hp data = Ok (Some v) -> 15 <= v <= 100.
Proof.
  destruct data as [| | | | | |record]; try discriminate.
  rewrite smart_extract_hp_record. intros [= H].
  exact (extract_hp_range record v H).
Qed.

Lemma smart_extract_hp_in_range_witness :
  smart_extract_hp
    (VDict [("horse_power", VStr "ca. 7 kW");
            ("model_name", VStr "Z 05hp / 45 H.P.")]) = Ok (Some 45)
  /\ 15 <= 45 <= 100.
Proof.
  assert (H : smart_extract_hp
                (VDict [("horse_power", VStr "ca. 7 kW");
                        ("model_name", VStr "Z 05hp / 45 H.P.")])
              = Ok (Some 45)) by reflexivity.
  split; [exact H|].
  exact (smart_extract_hp_in_range _ 45 H).
Defined.

(** ** Sorting *)



Lemma insert_perm (x : Qc) (l : list Qc) : Permutation (insert x l) (x :: l).
Proof.
  induction l as [|y l IH]; simpl; [reflexivity|].
  destruct (Qcleb x y); [reflexivity|].
  rewrite IH. apply perm_swap.
Qed.

Lemma sort_perm (l : list Qc) : Permutation (sort l) l.
Proof.
  induction l as [|x l IH]; simpl; [reflexivity|].
  rewrite insert_perm. now constructor.
Qed.







(** ** The loop over the steps *)

Lemma torch_max_step (exp : Qc -> Qc) (step : tensor) :
  step_prob exp step =
  if is_empty step then Raise IndexError else Ok (step_confidence exp step).
Proof. destruct step; reflexivity. Qed.

Lemma collect_steps (exp : Qc -> Qc) (scores : list tensor)
  (probs : list Qc) :
  collect exp probs scores =
  if existsb is_empty scores then Raise IndexError
  else Ok (probs ++ map (step_confidence exp) scores)%list.
Proof.
  revert probs. induction scores as [|step rest IH]; intros probs.
  - simpl. now rewrite app_nil_r.
  - cbn [collect existsb map]. rewrite torch_max_step.
    destruct (is_empty step); [reflexivity|].
    cbn [bind orb]. rewrite IH.
    destruct (existsb is_empty rest); [reflexivity|].
    now rewrite <- app_assoc.
Qed.

Lemma cutoff_lowest_count (n : nat) : cutoff n = lowest_count n.
Proof.
  unfold cutoff, lowest_count. f_equal.
  cbn [Qmult inject_Z Qnum Qden]. rewrite Pos.mul_1_l.
  rewrite Z.quot_div_nonneg by lia.
  change (Z.pos 100) with (4 * 25)%Z.
  rewrite Z.div_mul_cancel_r by lia.
  change 4%Z with (Z.of_nat 4). rewrite <- Nat2Z.inj_div.
  apply Nat2Z.id.
Qed.



(** What the estimator computes, in one equation. *)
Lemma calculate_confidence_eq (exp : Qc -> Qc) (scores : list tensor) :
  calculate_confidence exp scores =
  match scores with
  | [] => Ok 0%Qc
  | _ :: _ =>
      if existsb is_empty scores then Raise IndexError
      else
        let probs := sort (map (step_confidence exp) scores) in
        Ok (py_round
              (mean (firstn (lowest_count (List.length scores)) probs)) 4)
  end.
Proof.
  destruct scores as [|step rest]; [reflexivity|].
  unfold calculate_confidence. rewrite collect_steps.
  destruct (existsb is_empty (step :: rest)); [reflexivity|].
  cbn [bind app]. cbn [map].
  set (probs := step_confidence exp step :: map (step_confidence exp) rest).
  assert (Hlen : List.length (sort probs) = List.length (step :: rest)).
  { rewrite (Permutation_length (sort_perm probs)). subst probs.
    simpl. now rewrite length_map. }
  rewrite cutoff_lowest_count, Hlen. reflexivity.
Qed.

(** ** Arithmetic of the estimator *)

Section Bounds.

#[local] Open Scope Qc_scope.






Lemma flen_pos (l : list Qc) : l <> [] -> 0 < flen l.
Proof.
  intros Hl. unfold flen, Qclt, Q2Qc. cbn [this].
  rewrite !Qred_correct.
  destruct l as [|v l]; [now elim Hl|].
  unfold Qlt. cbn [Qnum Qden inject_Z List.length]. lia.
Qed.





End Bounds.

Section Rounding.

#[local] Open Scope Q_scope.



End Rounding.

(** ** The estimator *)













(** ** The error policy *)



(** * Further properties *)

(** ** The bounding-box normaliser: mappings *)

Lemma dict_lookup_setitem_other (k k' : string) (v : pyval) (d : dict) :
  k <> k' -> dict_lookup k (dict_setitem k' v d) = dict_lookup k d.
Proof.
  intros Hk. induction d as [|[k0 v0] d IH]; simpl.
  - apply String.eqb_neq in Hk. now rewrite Hk.
  - destruct (String.eqb k' k0) eqn:H0; simpl.
    + apply String.eqb_eq in H0. subst k0.
      apply String.eqb_neq in Hk. now rewrite Hk.
    + now rewrite IH.
Qed.

Lemma dict_mem_nonempty (k : string) (d : dict) :
  dict_mem k d = true -> truthy (VDict d) = true.
Proof. destruct d; [discriminate | reflexivity]. Qed.

Lemma with_bbox_lookup (d : dict) :
  dict_lookup "bbox" (with_bbox d) = Some (bbox_of d).
Proof.
  unfold with_bbox, bbox_of, dict_mem.
  destruct (dict_lookup "bbox" d) eqn:Hl; [exact Hl|].
  apply dict_lookup_setitem.
Qed.

(** What [validate_bbox] returns for a non-empty mapping. *)
Lemma validate_bbox_dict (d : dict) :
  d <> [] -> validate_bbox (VDict d) = Ok (VDict (fill_missing d)).
Proof.
  intros Hne. unfold validate_bbox.
  destruct d as [|e d]; [now elim Hne|].
  cbn [truthy List.length Nat.eqb negb]. cbv zeta.
  generalize (e :: d). clear. intros d.
  pose proof (with_bbox_lookup d) as Hb.
  unfold fill_missing, with_bbox, dict_getitem in *.
  destruct (dict_mem "bbox" d); rewrite Hb;
    match goal with
    | |- context [dict_mem "present" ?x] => now destruct (dict_mem "present" x)
    end.
Qed.

Lemma dict_lookup_setitem_absent (k k' : string) (v v' : pyval) (d : dict) :
  dict_lookup k d = Some v -> dict_mem k' d = false ->
  dict_lookup k (dict_setitem k' v' d) = Some v.
Proof.
  intros Hk Hk'. rewrite dict_lookup_setitem_other; [exact Hk|].
  intros ->. unfold dict_mem in Hk'. now rewrite Hk in Hk'.
Qed.

Lemma fill_missing_keeps (d : dict) (k : string) (v : pyval) :
  dict_lookup k d = Some v -> dict_lookup k (fill_missing d) = Some v.
Proof.
  intros Hk.
  assert (H1 : dict_lookup k (with_bbox d) = Some v).
  { unfold with_bbox. destruct (dict_mem "bbox" d) eqn:Hb; [exact Hk|].
    now apply dict_lookup_setitem_absent. }
  unfold fill_missing.
  destruct (dict_mem "present" (with_bbox d)) eqn:Hp; [exact H1|].
  now apply dict_lookup_setitem_absent.
Qed.

Lemma fill_missing_bbox (d : dict) :
  dict_lookup "bbox" (fill_missing d) = Some (bbox_of d).
Proof.
  unfold fill_missing.
  destruct (dict_mem "present" (with_bbox d)).
  - apply with_bbox_lookup.
  - rewrite dict_lookup_setitem_other by discriminate.
    apply with_bbox_lookup.
Qed.

Lemma fill_missing_present (d : dict) :
  dict_lookup "present" (fill_missing d) =
  Some (match dict_lookup "present" d with
        | Some p => p
        | None => VBool (negb (py_eq (bbox_of d) zero_bbox))
        end).
Proof.
  assert (H1 : dict_lookup "present" (with_bbox d) = dict_lookup "present" d).
  { unfold with_bbox. destruct (dict_mem "bbox" d); [reflexivity|].
    now rewrite dict_lookup_setitem_other by discriminate. }
  unfold fill_missing, dict_mem. rewrite H1.
  destruct (dict_lookup "present" d) eqn:Hp.
  - now rewrite H1.
  - apply dict_lookup_setitem.
Qed.

Lemma fill_missing_fixed (d : dict) :
  dict_mem "present" d = true -> dict_mem "bbox" d = true ->
  fill_missing d = d.
Proof.
  intros Hp Hb. unfold fill_missing, with_bbox. now rewrite Hb, Hp.
Qed.

Lemma validate_bbox_keys (field_data : pyval) :
  exists d, validate_bbox field_data = Ok (VDict d)
            /\ dict_mem "present" d = true /\ dict_mem "bbox" d = true.
Proof.
  destruct (truthy field_data) eqn:Ht.
  - destruct field_data as [|b|z|f|s|l|d];
      try (eexists; split; [unfold validate_bbox; rewrite Ht; reflexivity|];
           split; reflexivity).
    assert (Hne : d <> []) by (intros ->; discriminate Ht).
    rewrite (validate_bbox_dict d Hne). eexists. split; [reflexivity|].
    unfold dict_mem. now rewrite fill_missing_present, fill_missing_bbox.
  - eexists. split; [unfold validate_bbox; rewrite Ht; reflexivity|].
    split; reflexivity.
Qed.

(** X1: whatever the input, [validate_bbox] returns a mapping that has
    both a [present] and a [bbox] entry. *)
Theorem validate_bbox_shape (field_data : pyval) :
  exists d, validate_bbox field_data = Ok (VDict d)
            /\ dict_mem "present" d = true /\ dict_mem "bbox" d = true.
Proof. exact (validate_bbox_keys field_data). Qed.

(** X2: [validate_bbox] is idempotent: normalising its result again
    returns the result unchanged. *)
Theorem validate_bbox_idempotent (field_data : pyval) :
  (r <- validate_bbox field_data ;; validate_bbox r)
  = validate_bbox field_data.
Proof.
  destruct (validate_bbox_keys field_data) as (d & Hr & Hp & Hb).
  rewrite Hr. cbn [bind].
  assert (Hne : d <> []) by (intros ->; discriminate Hp).
  now rewrite (validate_bbox_dict d Hne), fill_missing_fixed.
Qed.

(** X3: [validate_bbox] never overwrites an entry of the mapping it is
    given: every key of the input keeps its value in the result. *)
Theorem validate_bbox_keeps_entries (d : dict) (k : string) (v : pyval) :
  dict_lookup k d = Some v ->
  exists d', validate_bbox (VDict d) = Ok (VDict d')
             /\ dict_lookup k d' = Some v.
Proof.
  intros Hk.
  assert (Hne : d <> []) by (intros ->; discriminate Hk).
  rewrite (validate_bbox_dict d Hne). eexists. split; [reflexivity|].
  now apply fill_missing_keeps.
Qed.

Lemma validate_bbox_keeps_entries_witness :
  exists d',
    validate_bbox
      (VDict [("page", VInt 2); ("bbox", VList [VInt 1; VInt 1; VInt 1; VInt 1])])
    = Ok (VDict d')
    /\ dict_lookup "page" d' = Some (VInt 2).
Proof.
  apply (validate_bbox_keeps_entries
           [("page", VInt 2); ("bbox", VList [VInt 1; VInt 1; VInt 1; VInt 1])]
           "page" (VInt 2)).
  reflexivity.
Defined.

Lemma Qeq_bool_zero (q : Q) : Qeq_bool q (inject_Z 0) = (Qnum q =? 0).
Proof.
  apply eq_iff_eq_true. rewrite Qeq_bool_iff, Z.eqb_eq.
  unfold Qeq. cbn [inject_Z Qnum Qden]. lia.
Qed.

Lemma py_eq_numeric_zero (v : pyval) : py_eq v (VInt 0) = is_numeric_zero v.
Proof.
  destruct v as [|b|z|f|s|l|d]; try reflexivity.
  - now destruct b.
  - cbn [py_eq as_number float_eq is_numeric_zero]. apply Qeq_bool_zero.
  - destruct f as [q| |]; try reflexivity.
    cbn [py_eq as_number float_eq is_numeric_zero]. apply Qeq_bool_zero.
Qed.

Lemma py_eq_zero_bbox (v : pyval) : py_eq v zero_bbox = is_zero_box v.
Proof.
  destruct v as [| | | | |l|]; try reflexivity.
  destruct l as [|a [|b [|c [|d [|e l]]]]]; try reflexivity;
    cbn [py_eq zero_bbox is_zero_box];
    rewrite ?andb_false_r; try reflexivity.
  rewrite !py_eq_numeric_zero. now rewrite andb_true_r, !andb_assoc.
Qed.

(** X4: for a non-empty mapping without a [present] entry,
    [validate_bbox] sets [present] to false exactly when the box (the
    [bbox] entry, the zero box when there is none) is a list of four
    numbers equal to zero, whether written [0], [0.0] or [False]. *)
Theorem validate_bbox_present (d : dict) :
  d <> [] -> dict_lookup "present" d = None ->
  exists d', validate_bbox (VDict d) = Ok (VDict d')
             /\ dict_lookup "present" d'
                = Some (VBool (negb (is_zero_box (bbox_of d))))
             /\ dict_lookup "bbox" d' = Some (bbox_of d).
Proof.
  intros Hne Hp. rewrite (validate_bbox_dict d Hne).
  eexists. split; [reflexivity|].
  rewrite fill_missing_present, fill_missing_bbox, Hp, py_eq_zero_bbox.
  now split.
Qed.

Lemma validate_bbox_present_witness :
  exists d',
    validate_bbox
      (VDict [("bbox", VList [VFloat (FFinite 0); VInt 0; VBool false; VInt 0])])
    = Ok (VDict d')
    /\ dict_lookup "present" d' = Some (VBool false)
    /\ dict_lookup "bbox" d'
       = Some (VList [VFloat (FFinite 0); VInt 0; VBool false; VInt 0]).
Proof.
  apply (validate_bbox_present
           [("bbox", VList [VFloat (FFinite 0); VInt 0; VBool false; VInt 0])]).
  - discriminate.
  - reflexivity.
Defined.

(** ** The cost normaliser: errors, floats and texts *)


(** X6: a finite float is truncated toward zero: the result lies
    between zero and the float, less than one away from it. *)
Theorem clean_cost_float_truncates (q : Q) :
  exists t,
    clean_cost (VFloat (FFinite q)) = Ok t
    /\ (0 <= q -> inject_Z t <= q /\ q < inject_Z (t + 1) /\ (0 <= t)%Z)%Q
    /\ (q <= 0 -> inject_Z (t - 1) < q /\ q <= inject_Z t /\ (t <= 0)%Z)%Q.
Proof.
  exists (truncate q). split.
  - unfold clean_cost. cbn. now rewrite truncate_quot.
  - unfold truncate. split; intros Hq.
    + apply Qle_bool_iff in Hq as Hb. rewrite Hb. repeat split.
      * apply Qfloor_le.
      * apply Qlt_floor.
      * change 0%Z with (Qfloor (inject_Z 0)). now apply Qfloor_resp_le.
    + destruct (Qle_bool 0 q) eqn:Hb.
      * apply Qle_bool_iff in Hb.
        assert (Hf : Qfloor q = 0%Z).
        { apply Z.le_antisymm.
          - change 0%Z with (Qfloor (inject_Z 0)). now apply Qfloor_resp_le.
          - change 0%Z with (Qfloor (inject_Z 0)). now apply Qfloor_resp_le. }
        rewrite Hf. repeat split.
        -- apply Qlt_le_trans with 0%Q; [reflexivity | exact Hb].
        -- exact Hq.
        -- lia.
      * repeat split.
        -- apply Qceiling_lt.
        -- apply Qle_ceiling.
        -- change 0%Z with (Qceiling (inject_Z 0)).
           now apply Qceiling_resp_le.
Qed.





(** ** The validator on floats *)

Lemma truncate_in_range (q : Q) :
  (15 <= truncate q <= 100)%Z <-> (inject_Z 15 <= q /\ q < inject_Z 101)%Q.
Proof.
  unfold truncate. destruct (Qle_bool 0 q) eqn:Hb.
  - pose proof (Qfloor_le q) as Hle. pose proof (Qlt_floor q) as Hlt.
    split.
    + intros [H15 H100]. split.
      * apply Qle_trans with (inject_Z (Qfloor q)); [|exact Hle].
        now rewrite <- Zle_Qle.
      * apply Qlt_le_trans with (inject_Z (Qfloor q + 1)); [exact Hlt|].
        rewrite <- Zle_Qle. lia.
    + intros [H15 H101]. split.
      * change 15%Z with (Qfloor (inject_Z 15)). now apply Qfloor_resp_le.
      * assert (H : (inject_Z (Qfloor q) < inject_Z 101)%Q)
          by (apply Qle_lt_trans with q; assumption).
        rewrite <- Zlt_Qlt in H. lia.
  - assert (Hneg : (q < 0)%Q).
    { apply Qnot_le_lt. intros H. apply Qle_bool_iff in H. congruence. }
    split.
    + intros [H15 _].
      assert (H : (Qceiling q <= 0)%Z).
      { change 0%Z with (Qceiling (inject_Z 0)).
        apply Qceiling_resp_le. now apply Qlt_le_weak. }
      lia.
    + intros [H15 _]. exfalso.
      apply (Qlt_irrefl 0%Q). apply Qlt_le_trans with (inject_Z 15);
        [reflexivity|].
      apply Qle_trans with q; [exact H15 | now apply Qlt_le_weak].
Qed.

(** X8: on a finite float [sanity_check_hp] accepts exactly the values
    from 15 up to, but not including, 101, and returns their integer
    part: 100.9 is accepted as 100, 14.999 is rejected. *)
Theorem sanity_check_hp_float (q : Q) (i : Z) :
  sanity_check_hp (VFloat (FFinite q)) = Ok (Some i) <->
  i = truncate q /\ (inject_Z 15 <= q /\ q < inject_Z 101)%Q.
Proof.
  rewrite sanity_check_hp_some, in_hp_range_iff.
  cbn [py_int int_of_float truthy]. rewrite truncate_quot.
  rewrite <- truncate_in_range. split.
  - intros (_ & [= <-] & Hr). now split.
  - intros [-> Hr]. repeat split; try apply Hr.
    apply negb_true_iff, Z.eqb_neq. intros Hn.
    apply truncate_in_range in Hr as [H15 _].
    assert (H0 : (q == 0)%Q) by (unfold Qeq; cbn; lia).
    rewrite H0 in H15. unfold Qle in H15. cbn in H15. lia.
Qed.

(** ** The extractor: which parts of a record count *)

Lemma all_of_digits (s : string) : all_of is_digit s = all_digits s.
Proof. induction s as [|c s IH]; simpl; [reflexivity | now rewrite IH]. Qed.


Lemma validated_digits (m : string) :
  all_digits m = true -> m <> EmptyString ->
  validated (VStr m) =
  if in_hp_range (decimal 0 m) then Some (decimal 0 m) else None.
Proof.
  intros Hd Hne. unfold validated, sanity_check_hp. cbn [truthy py_int].
  rewrite (int_of_str_digits m Hd Hne).
  destruct m; [now elim Hne | reflexivity].
Qed.

Lemma digit_val_bounds (c : ascii) :
  is_digit c = true -> 0 <= digit_val c <= 9.
Proof.
  unfold is_digit, between, digit_val.
  rewrite andb_true_iff, !Nat.leb_le. lia.
Qed.

Lemma digit_not_re_space (c : ascii) : is_digit c = true -> is_space c = false.
Proof.
  unfold is_digit, is_space, between.
  rewrite andb_true_iff, !Nat.leb_le. intros [Hlo Hhi].
  repeat rewrite orb_false_iff. repeat split.
  - apply andb_false_iff. right. apply Nat.leb_gt. lia.
  - apply andb_false_iff. right. apply Nat.leb_gt. lia.
  - apply Nat.eqb_neq. lia.
  - apply Nat.eqb_neq. lia.
Qed.

Lemma digit_not_marker (c : ascii) (s : string) :
  is_digit c = true -> hp_marker (String c s) = None.
Proof.
  intros Hc. unfold hp_marker. cbn [starts_with_i].
  assert (H : Ascii.eqb (lower "h") (lower c) = false).
  { apply Ascii.eqb_neq. intros Heq.
    destruct c as [[] [] [] [] [] [] [] []]; try discriminate Hc;
      discriminate Heq. }
  now rewrite H.
Qed.

(** X9: [smart_extract_hp] reads two entries of the record and nothing
    else: records that agree on [horse_power] and [model_name] give the
    same result. *)
Theorem smart_extract_hp_reads_two_fields (r1 r2 : dict) :
  dict_lookup "horse_power" r1 = dict_lookup "horse_power" r2 ->
  dict_lookup "model_name" r1 = dict_lookup "model_name" r2 ->
  smart_extract_hp (VDict r1) = smart_extract_hp (VDict r2).
Proof.
  intros Hhp Hmodel. rewrite !smart_extract_hp_record.
  unfold extract_hp, field. now rewrite Hhp, Hmodel.
Qed.

Lemma smart_extract_hp_reads_two_fields_witness :
  smart_extract_hp
    (VDict [("maker", VStr "Acme 90 HP"); ("model_name", VStr "T 45 hp")])
  = smart_extract_hp
      (VDict [("model_name", VStr "T 45 hp"); ("cost", VInt 500)]).
Proof.
  apply smart_extract_hp_reads_two_fields; reflexivity.
Defined.

Lemma hp_here_two_digits (s num rest : string) :
  hp_here s = Some (num, rest) -> two_digits num.
Proof.
  intros H. apply hp_here_spec in H
    as (d1 & d2 & _ & _ & _ & -> & H1 & H2 & _).
  now exists d1, d2.
Qed.

Lemma hp_candidates_two_digits (s : string) (skip : nat) :
  Forall two_digits (hp_candidates_from skip s).
Proof.
  revert skip. induction s as [|c s IH]; intros skip; [constructor|].
  cbn [hp_candidates_from]. destruct skip as [|n]; [|apply IH].
  destruct (hp_here (String c s)) as [[num rest]|] eqn:Hh; [|apply IH].
  constructor; [exact (hp_here_two_digits _ _ _ Hh) | apply IH].
Qed.

Lemma two_digits_value (m : string) :
  two_digits m ->
  all_digits m = true /\ m <> EmptyString /\ 0 <= decimal 0 m <= 99.
Proof.
  intros (d1 & d2 & -> & H1 & H2). simpl. rewrite H1, H2.
  repeat split; try discriminate;
    pose proof (digit_val_bounds d1 H1); pose proof (digit_val_bounds d2 H2);
    lia.
Qed.

Lemma first_valid_two_digits (candidates : list string) (v : Z) :
  Forall two_digits candidates ->
  first_valid candidates = Some v -> 15 <= v <= 99.
Proof.
  induction 1 as [|m rest Hm _ IH]; simpl; [discriminate|].
  destruct (two_digits_value m Hm) as (Hd & Hne & Hv).
  rewrite (validated_digits m Hd Hne).
  destruct (in_hp_range (decimal 0 m)) eqn:Hr; [|exact IH].
  intros [= <-]. apply in_hp_range_iff in Hr. lia.
Qed.

(** X10: what the [model_name] fallback returns lies in 15..99: a
    record without a [horse_power] entry never yields 100. *)
Theorem smart_extract_hp_fallback_range (record : dict) (v : Z) :
  dict_lookup "horse_power" record = None ->
  smart_extract_hp (VDict record) = Ok (Some v) ->
  15 <= v <= 99.
Proof.
  intros Hhp. rewrite smart_extract_hp_record.
  unfold extract_hp, field. rewrite Hhp.
  change (validated (direct_candidate VNone)) with (@None Z).
  intros [= H].
  destruct (dict_lookup "model_name" record) as [[| | | |s| |]|];
    try discriminate.
  exact (first_valid_two_digits _ v (hp_candidates_two_digits s O) H).
Qed.

Lemma smart_extract_hp_fallback_range_witness :
  smart_extract_hp (VDict [("model_name", VStr "Tractor 99 HP")])
  = Ok (Some 99)
  /\ 15 <= 99 <= 99.
Proof.
  assert (H : smart_extract_hp (VDict [("model_name", VStr "Tractor 99 HP")])
              = Ok (Some 99)) by reflexivity.
  split; [exact H|].
  exact (smart_extract_hp_fallback_range
           [("model_name", VStr "Tractor 99 HP")] 99 eq_refl H).
Defined.

Lemma starts_with_two_digits (ds tail : string) (d1 d2 : ascii) :
  all_of is_digit ds = true -> is_digit d1 = true -> is_digit d2 = true ->
  exists x y z,
    (ds ++ String d1 (String d2 tail))%string = String x (String y z)
    /\ is_digit x = true /\ is_digit y = true.
Proof.
  intros Hds H1 H2. destruct ds as [|a [|b ds]]; simpl in *.
  - now exists d1, d2, tail.
  - apply andb_true_iff in Hds as [Ha _]. now exists a, d1, (String d2 tail).
  - apply andb_true_iff in Hds as [Ha Hds].
    apply andb_true_iff in Hds as [Hb _].
    now exists a, b, (ds ++ String d1 (String d2 tail))%string.
Qed.

Lemma hp_here_three_digits (c x y : ascii) (z : string) :
  is_digit y = true -> hp_here (String c (String x (String y z))) = None.
Proof.
  intros Hy. unfold hp_here.
  destruct (is_digit c && is_digit x); [|reflexivity].
  cbn [drop_while]. rewrite (digit_not_re_space y Hy).
  now rewrite digit_not_marker.
Qed.

Lemma hp_candidates_after_digits (ds tail : string) (d1 d2 : ascii) :
  all_of is_digit ds = true -> is_digit d1 = true -> is_digit d2 = true ->
  hp_candidates (ds ++ String d1 (String d2 tail)) =
  hp_candidates (String d1 (String d2 tail)).
Proof.
  intros Hds H1 H2. unfold hp_candidates.
  induction ds as [|c ds IH]; [reflexivity|].
  cbn [all_of] in Hds. apply andb_true_iff in Hds as [Hc Hds].
  cbn [append hp_candidates_from].
  destruct (starts_with_two_digits ds tail d1 d2 Hds H1 H2)
    as (x & y & z & Heq & Hx & Hy).
  rewrite Heq at 1. rewrite hp_here_three_digits by exact Hy.
  now apply IH.
Qed.

(** X11: the fallback reads only the two digits next to the marker: in
    a [model_name] that starts with a longer number followed, after
    optional white space, by a marker, the digits before the last two
    are ignored, so that "150HP" is read as 50. *)
Theorem smart_extract_hp_last_two_digits (record : dict)
  (ds ws m rest : string) (d1 d2 : ascii) :
  dict_lookup "horse_power" record = None ->
  dict_lookup "model_name" record
  = Some (VStr (ds ++ String d1 (String d2 (ws ++ m ++ rest)))) ->
  all_of is_digit ds = true -> is_digit d1 = true -> is_digit d2 = true ->
  all_of is_space ws = true -> is_marker m ->
  15 <= decimal 0 (String d1 (String d2 EmptyString)) ->
  smart_extract_hp (VDict record)
  = Ok (Some (decimal 0 (String d1 (String d2 EmptyString)))).
Proof.
  intros Hhp Hmodel Hds H1 H2 Hws Hm H15.
  rewrite smart_extract_hp_record. unfold extract_hp, field.
  rewrite Hhp, Hmodel.
  change (validated (direct_candidate VNone)) with (@None Z).
  rewrite hp_candidates_after_digits by assumption.
  unfold hp_candidates. cbn [hp_candidates_from].
  assert (Hh : hp_here (String d1 (String d2 (ws ++ m ++ rest)))
               = Some (String d1 (String d2 EmptyString), rest)).
  { apply hp_here_spec. exists d1, d2, ws, m. repeat split; assumption. }
  rewrite Hh. cbn [first_valid].
  assert (Htwo : two_digits (String d1 (String d2 EmptyString)))
    by (now exists d1, d2).
  destruct (two_digits_value _ Htwo) as (Hd & Hne & Hv).
  rewrite (validated_digits _ Hd Hne).
  assert (Hr : in_hp_range (decimal 0 (String d1 (String d2 EmptyString)))
               = true) by (apply in_hp_range_iff; lia).
  now rewrite Hr.
Qed.

Lemma smart_extract_hp_last_two_digits_witness :
  smart_extract_hp (VDict [("model_name", VStr "150HP")]) = Ok (Some 50).
Proof.
  apply (smart_extract_hp_last_two_digits
           [("model_name", VStr "150HP")] "1" "" "HP" "" "5" "0");
    try reflexivity.
  - left. reflexivity.
  - vm_compute. discriminate.
Defined.



(** ** The estimator: errors and the order of the vocabulary *)

(** X13: [calculate_confidence] raises exactly when some step of the
    sequence has no score at all, and then with [IndexError]. *)
Theorem calculate_confidence_raises (exp : Qc -> Qc)
  (scores : list tensor) (e : exn) :
  calculate_confidence exp scores = Raise e <->
  e = IndexError /\ Exists (fun step => step = []) scores.
Proof.
  rewrite calculate_confidence_eq.
  assert (Hex : existsb is_empty scores = true <->
                Exists (fun step : tensor => step = []) scores).
  { rewrite existsb_exists, Exists_exists.
    split; intros (x & Hin & Hx); exists x; (split; [exact Hin|]).
    - now destruct x.
    - now subst x. }
  destruct scores as [|step rest].
  - split; [discriminate|]. intros [_ H]. inversion H.
  - destruct (existsb is_empty (step :: rest)) eqn:Hb.
    + split.
      * intros [= <-]. split; [reflexivity | now apply Hex].
      * intros [-> _]. reflexivity.
    + split; [discriminate|]. intros [_ H]. apply Hex in H. discriminate.
Qed.







(** ** The estimator: uniform scores and short sequences *)

Section Means.

#[local] Open Scope Qc_scope.






End Means.






(** ** The estimator: between the weakest token and the plain average *)

Section Between.

#[local] Open Scope Qc_scope.



Lemma flen_nonneg (l : list Qc) : 0 <= flen l.
Proof.
  destruct l as [|x l]; [apply Qcle_refl|].
  apply Qclt_le_weak, flen_pos. discriminate.
Qed.







End Between.

Section Monotone.

#[local] Open Scope Q_scope.




End Monotone.


